(** * slow: a rate-limited pipe from stdin to stdout

    Shallow embedding of [src/slow.c] and the properties of its
    specification.  The program is one C function, [main], plus the
    helper [usage]; it talks to the outside through the C library
    ([atoi], [fprintf], [fgetc], [fputc], [usleep], [setvbuf], [exit]).

    The embedding has three layers:
    - [Libc]: the part of the C library the program calls, as a small
      monad over the unread standard input that logs every call;
    - [Slow]: [usage] and [main], written statement by statement;
    - the theorems, stated on the log of calls ([evs]) and on the byte
      streams derived from it. *)

From Stdlib Require Import ZArith List String Ascii Lia Bool.
From Stdlib.Strings Require Import Byte.
Import ListNotations.
Local Open Scope Z_scope.

(** ** C integers and characters *)

Module CInt.

(** [int] is 32 bits wide, [long] 64 bits (LP64). *)
Definition INT_MIN : Z := - 2 ^ 31.
Definition INT_MAX : Z := 2 ^ 31 - 1.
Definition LONG_MIN : Z := - 2 ^ 63.
Definition LONG_MAX : Z := 2 ^ 63 - 1.

(** Conversion of a wider integer to [int]: the low 32 bits, read as a
    two's complement number. *)
Definition to_int (z : Z) : Z := (z + 2 ^ 31) mod 2 ^ 32 - 2 ^ 31.

(** Conversion to [unsigned char], the way [fputc] and [%c] take their
    [int] argument. *)
Definition to_uchar (c : Z) : byte :=
  match Byte.of_N (Z.to_N (c mod 256)) with
  | Some b => b
  | None => x00
  end.

(** An [unsigned char] promoted to [int], the way [fgetc] returns it. *)
Definition of_uchar (b : byte) : Z := Z.of_N (Byte.to_N b).

(** [a / b] on [int]: the quotient truncated towards zero. *)
Definition div (a b : Z) : Z := Z.quot a b.

End CInt.

(** ** The C library, as far as the program uses it *)

Module Libc.

Definition EOF : Z := -1.

Inductive stream := Stdout | Stderr.

Definition stream_eqb (a b : stream) : bool :=
  match a, b with
  | Stdout, Stdout | Stderr, Stderr => true
  | _, _ => false
  end.

(** One entry per library call with an effect outside the process, in
    the order of the calls. *)
Inductive event :=
| EvSetvbuf (s : stream)                  (* setvbuf(s, NULL, _IONBF, 0) *)
| EvPrintf (s : stream) (out : list byte) (* fprintf(s, ...), formatted  *)
| EvGetc (c : Z)                          (* fgetc(stdin) returned c     *)
| EvPutc (b : byte)                       (* fputc(c, stdout) wrote b    *)
| EvUsleep (usec : Z).                    (* usleep(usec)                *)

(** How a computation ends: it returns, the process exits through
    [exit], or the model of a loop ran out of fuel. *)
Inductive result (A : Type) :=
| Ret (a : A)
| Exit (status : Z)
| OutOfFuel.
Arguments Ret {A} a.
Arguments Exit {A} status.
Arguments OutOfFuel {A}.

Record run (A : Type) := Run {
  res : result A;        (* how it ended *)
  unread : list byte;    (* what is left on standard input *)
  evs : list event       (* the calls made, oldest first *)
}.
Arguments Run {A} res unread evs.
Arguments res {A} r.
Arguments unread {A} r.
Arguments evs {A} r.

(** A computation reads from the bytes pending on standard input. *)
Definition M (A : Type) : Type := list byte -> run A.

Definition ret {A} (a : A) : M A := fun i => Run (Ret a) i [].

Definition bind {A B} (m : M A) (f : A -> M B) : M B :=
  fun i =>
    let r := m i in
    match res r with
    | Ret a =>
        let r' := f a (unread r) in
        Run (res r') (unread r') (evs r ++ evs r')
    | Exit n => Run (Exit n) (unread r) (evs r)
    | OutOfFuel => Run OutOfFuel (unread r) (evs r)
    end.

Definition emit (e : event) : M unit := fun i => Run (Ret tt) i [e].

(** [exit(status)] does not return. *)
Definition exit {A} (status : Z) : M A := fun i => Run (Exit status) i [].

Definition out_of_fuel {A} : M A := fun i => Run OutOfFuel i [].

Declare Scope libc_scope.
Delimit Scope libc_scope with libc.
Notation "x <- m ;; k" := (bind m (fun x => k))
  (at level 61, m at next level, right associativity) : libc_scope.
Notation "m ;; k" := (bind m (fun _ => k))
  (at level 61, right associativity) : libc_scope.

(** *** Formatted output

    Only the conversion the program uses is modelled: [%c] takes the
    next [int] argument and writes it as an [unsigned char]; every
    other byte of the format is copied. *)
Fixpoint format (fmt : list byte) (args : list Z) : list byte :=
  match fmt with
  | [] => []
  | b :: fmt' =>
      if Byte.eqb b "%" then
        match fmt', args with
        | d :: fmt'', a :: args' =>
            if Byte.eqb d "c" then CInt.to_uchar a :: format fmt'' args'
            else b :: format fmt' args
        | _, _ => b :: format fmt' args
        end
      else b :: format fmt' args
  end.

Definition fprintf (s : stream) (fmt : list byte) (args : list Z) : M unit :=
  emit (EvPrintf s (format fmt args)).

Definition setvbuf_unbuffered (s : stream) : M unit := emit (EvSetvbuf s).

(** *** Character input and output *)

Definition fgetc : M Z := fun i =>
  match i with
  | [] => Run (Ret EOF) [] [EvGetc EOF]
  | b :: i' => Run (Ret (CInt.of_uchar b)) i' [EvGetc (CInt.of_uchar b)]
  end.

Definition fputc (c : Z) : M unit := emit (EvPutc (CInt.to_uchar c)).

Definition usleep (usec : Z) : M unit := emit (EvUsleep usec).

(** *** [atoi]

    ISO C defines [atoi(s)] as [(int)strtol(s, NULL, 10)]: white space
    is skipped, one sign is accepted, and the longest run of decimal
    digits is converted; no digits give 0.  Out of range, [strtol]
    returns [LONG_MAX] or [LONG_MIN] and the conversion to [int] keeps
    the low 32 bits (glibc on LP64). *)

Definition isspace (c : ascii) : bool :=
  let n := N_of_ascii c in
  (n =? 32)%N || ((9 <=? n)%N && (n <=? 13)%N).

Definition isdigit (c : ascii) : bool :=
  let n := N_of_ascii c in (48 <=? n)%N && (n <=? 57)%N.

Definition digit_value (c : ascii) : Z := Z.of_N (N_of_ascii c) - 48.

Fixpoint skip_space (s : string) : string :=
  match s with
  | String c s' => if isspace c then skip_space s' else s
  | EmptyString => s
  end.

Fixpoint digits (acc : Z) (s : string) : Z :=
  match s with
  | String c s' =>
      if isdigit c then digits (acc * 10 + digit_value c) s' else acc
  | EmptyString => acc
  end.

Definition saturate_long (z : Z) : Z :=
  if z <? CInt.LONG_MIN then CInt.LONG_MIN
  else if CInt.LONG_MAX <? z then CInt.LONG_MAX
  else z.

Definition strtol10 (s : string) : Z :=
  match skip_space s with
  | String c s' =>
      if Ascii.eqb c "-" then saturate_long (- digits 0 s')
      else if Ascii.eqb c "+" then saturate_long (digits 0 s')
      else saturate_long (digits 0 (String c s'))
  | EmptyString => 0
  end.

Definition atoi (s : string) : Z := CInt.to_int (strtol10 s).

End Libc.

(** ** The program *)

Module Slow.
Import Libc.
Local Open Scope libc_scope.

(** A C string literal, as the bytes of its characters. *)
Definition lit (s : string) : list byte := list_byte_of_string s.

Definition newline : byte := x0a.

(** [argv[i]]; the program only indexes below [argc]. *)
Definition arg (argv : list string) (i : nat) : string :=
  nth i argv EmptyString.

(** <<
    void usage() {
      fprintf(stderr, "usage: slow [speed] < input.txt\n");
      exit(1);
    }
    >> *)
Definition usage : M unit :=
  fprintf Stderr (lit "usage: slow [speed] < input.txt" ++ [newline]) [] ;;
  exit 1.

(** The rate in effect after argument handling:
    <<
    int bps = 960;
    if (argc > 1) {
      bps = atoi(argv[1]);
      if (bps < 10)
        bps = 10;
    }
    >> *)
Definition rate (argc : Z) (argv : list string) : Z :=
  let bps := 960 in
  if argc >? 1 then
    let bps := atoi (arg argv 1) in
    if bps <? 10 then 10 else bps
  else bps.

(** [delay = 1000 * 1000 / bps;] *)
Definition delay_of (bps : Z) : Z := CInt.div (1000 * 1000) bps.

(** <<
    while ((c = fgetc(stdin)) != EOF) {
      fputc(c, stdout);
      if (delay > 4)
        usleep(delay);
    }
    >>
    One unit of fuel per evaluation of the loop condition. *)
Fixpoint copy_loop (fuel : nat) (delay : Z) : M unit :=
  match fuel with
  | O => out_of_fuel
  | S fuel' =>
      c <- fgetc ;;
      if negb (c =? EOF) then
        fputc c ;;
        (if delay >? 4 then usleep delay else ret tt) ;;
        copy_loop fuel' delay
      else ret tt
  end.

(** [main], with [argc] the length of [argv]. *)
Definition main (fuel : nat) (argv : list string) : M Z :=
  let argc := Z.of_nat (List.length argv) in
  let esc := 27 (* 0x1b *) in
  (if argc >? 2 then usage else ret tt) ;;
  let bps := rate argc argv in
  let delay := delay_of bps in
  setvbuf_unbuffered Stdout ;;
  fprintf Stdout (lit "%c[H%c[J") [esc; esc] ;;
  copy_loop fuel delay ;;
  fprintf Stdout (lit "%c[24;0H") [esc] ;;
  ret 0.

(** One invocation: the command line and the whole of standard input.
    The loop condition is evaluated once per input byte and once more
    at end of stream. *)
Definition slow (argv : list string) (input : list byte) : run Z :=
  main (S (List.length input)) argv input.

(** *** What an invocation shows to the outside *)

(** The bytes that reached a stream, in order. *)
Fixpoint written (s : stream) (t : list event) : list byte :=
  match t with
  | [] => []
  | EvPrintf s' out :: t' =>
      if stream_eqb s s' then out ++ written s t' else written s t'
  | EvPutc b :: t' =>
      if stream_eqb s Stdout then b :: written s t' else written s t'
  | _ :: t' => written s t'
  end.

(** The process exit status: the argument of [exit], or what [main]
    returned. *)
Definition exit_status (r : run Z) : option Z :=
  match res r with
  | Ret v => Some v
  | Exit n => Some n
  | OutOfFuel => None
  end.

(** The suspensions requested, in order. *)
Fixpoint sleeps (t : list event) : list Z :=
  match t with
  | [] => []
  | EvUsleep d :: t' => d :: sleeps t'
  | _ :: t' => sleeps t'
  end.

(** The formatted writes to a stream, in order. *)
Fixpoint printfs (s : stream) (t : list event) : list (list byte) :=
  match t with
  | [] => []
  | EvPrintf s' out :: t' =>
      if stream_eqb s s' then out :: printfs s t' else printfs s t'
  | _ :: t' => printfs s t'
  end.

(** The two control sequences and the usage text, byte by byte. *)
Definition ESC : byte := x1b.
Definition leading_sequence : list byte := [ESC; "["; "H"; ESC; "["; "J"]%byte.
Definition trailing_sequence : list byte :=
  [ESC; "["; "2"; "4"; ";"; "0"; "H"]%byte.
Definition usage_text : list byte := lit "usage: slow [speed] < input.txt".

(** The rate and the delay of an invocation. *)
Definition main_bps (argv : list string) : Z :=
  rate (Z.of_nat (List.length argv)) argv.
Definition main_delay (argv : list string) : Z := delay_of (main_bps argv).

(** Total of the suspensions requested, in microseconds. *)
Definition total (ds : list Z) : Z := fold_right Z.add 0 ds.

(** *** The shape of the log *)

(** The calls of [if (delay > 4) usleep(delay);]. *)
Definition pause (delay : Z) : list event :=
  if delay >? 4 then [EvUsleep delay] else [].

(** The calls of one loop iteration on byte [b]. *)
Definition iteration (delay : Z) (b : byte) : list event :=
  EvGetc (CInt.of_uchar b) :: EvPutc b :: pause delay.

(** The calls between the two control sequences. *)
Definition copy_phase (delay : Z) (input : list byte) : list event :=
  flat_map (iteration delay) input ++ [EvGetc EOF].

(** *** The delay around a written byte

    Two readings of where the delay sits, for a log [t] and a delay [d]:
    before each [fputc], or right after it. *)

(** Every byte written has a suspension of [d] somewhere before it. *)
Definition delay_before_each_byte (t : list event) (d : Z) : Prop :=
  forall pre b post,
    t = pre ++ EvPutc b :: post -> In (EvUsleep d) pre.

(** Every byte written has a suspension of [d] as the very next call. *)
Definition delay_after_each_byte (t : list event) (d : Z) : Prop :=
  forall pre b post,
    t = pre ++ EvPutc b :: post -> exists post', post = EvUsleep d :: post'.

(** Every byte written after another one has, right before the [fgetc]
    that read it, a suspension of [d]. *)
Definition delay_before_later_bytes (t : list event) (d : Z) : Prop :=
  forall pre b post,
    t = pre ++ EvPutc b :: post ->
    (exists b0, In (EvPutc b0) pre) ->
    exists pre', pre = pre' ++ [EvUsleep d; EvGetc (CInt.of_uchar b)].

(** The first byte written has no suspension before it. *)
Definition no_delay_before_first_byte (t : list event) : Prop :=
  forall pre b post,
    t = pre ++ EvPutc b :: post ->
    (forall b0, ~ In (EvPutc b0) pre) ->
    forall usec, ~ In (EvUsleep usec) pre.

(** *** Counting calls *)


(** How many bytes [fgetc] has delivered (the end of stream is none). *)
Fixpoint bytes_read (t : list event) : nat :=
  match t with
  | [] => O
  | EvGetc c :: t' => if c =? EOF then bytes_read t' else S (bytes_read t')
  | _ :: t' => bytes_read t'
  end.

(** How many bytes [fputc] has written. *)
Fixpoint bytes_written (t : list event) : nat :=
  match t with
  | [] => O
  | EvPutc _ :: t' => S (bytes_written t')
  | _ :: t' => bytes_written t'
  end.

(** At every point of the log, each byte read so far has been written,
    except possibly the one read last. *)
Definition no_read_ahead (t : list event) : Prop :=
  forall pre post,
    t = pre ++ post ->
    (bytes_written pre <= bytes_read pre <= bytes_written pre + 1)%nat.

(** *** Arguments that are not numbers *)

(** [s] has no decimal digit in it. *)
Fixpoint no_digit (s : string) : bool :=
  match s with
  | EmptyString => true
  | String c s' => negb (isdigit c) && no_digit s'
  end.

End Slow.

Import Libc Slow.

(** ** [atoi] on a few arguments *)

Example atoi_480 : atoi "480" = 480.
Proof. reflexivity. Qed.

Example atoi_neg : atoi "  -7x" = -7.
Proof. reflexivity. Qed.

Example atoi_word : atoi "fast" = 0.
Proof. reflexivity. Qed.

(** Out of the range of [int], the low 32 bits are kept. *)
Example atoi_big : atoi "4294967306" = 10.
Proof. reflexivity. Qed.

(** ** Four runs, evaluated *)

(** Empty input, default rate. *)
Example run_empty :
  slow ["slow"%string] [] =
  Run (Ret 0) []
      [EvSetvbuf Stdout; EvPrintf Stdout leading_sequence;
       EvGetc EOF; EvPrintf Stdout trailing_sequence].
Proof. reflexivity. Qed.

(** Two bytes at 500000 bytes per second: the delay is 2, no pause. *)
Example run_fast :
  slow ["slow"; "500000"]%string ["A"; "B"]%byte =
  Run (Ret 0) []
      [EvSetvbuf Stdout; EvPrintf Stdout leading_sequence;
       EvGetc 65; EvPutc "A"; EvGetc 66; EvPutc "B";
       EvGetc EOF; EvPrintf Stdout trailing_sequence].
Proof. reflexivity. Qed.

(** A three-byte UTF-8 character at the default rate. *)
Example run_utf8 :
  slow ["slow"%string] [xe2; x98; x83]%byte =
  Run (Ret 0) []
      [EvSetvbuf Stdout; EvPrintf Stdout leading_sequence;
       EvGetc 226; EvPutc xe2; EvUsleep 1041;
       EvGetc 152; EvPutc x98; EvUsleep 1041;
       EvGetc 131; EvPutc x83; EvUsleep 1041;
       EvGetc EOF; EvPrintf Stdout trailing_sequence].
Proof. reflexivity. Qed.

(** Two arguments after the program name. *)
Example run_usage :
  slow ["slow"; "100"; "200"]%string ["A"; "B"]%byte =
  Run (Exit 1) ["A"; "B"]%byte
      [EvPrintf Stderr (lit "usage: slow [speed] < input.txt" ++ [x0a])].
Proof. reflexivity. Qed.

(** ** Characters survive the round trip through [int] *)

Section Characters.

Lemma of_uchar_range (b : byte) : 0 <= CInt.of_uchar b <= 255.
Proof.
  unfold CInt.of_uchar. pose proof (Byte.to_N_bounded b). lia.
Qed.

(** A character read is never mistaken for end of stream, 0xff
    included: [c] is an [int]. *)
Lemma of_uchar_not_EOF (b : byte) : (CInt.of_uchar b =? EOF) = false.
Proof.
  apply Z.eqb_neq. pose proof (of_uchar_range b). unfold EOF. lia.
Qed.

Lemma to_uchar_of_uchar (b : byte) : CInt.to_uchar (CInt.of_uchar b) = b.
Proof.
  unfold CInt.to_uchar.
  rewrite Z.mod_small by (pose proof (of_uchar_range b); lia).
  unfold CInt.of_uchar. rewrite N2Z.id, Byte.of_to_N. reflexivity.
Qed.

End Characters.

(** ** The copy loop *)

Section CopyLoop.

Variable delay : Z.

(** With one unit of fuel per input byte and one for the end of
    stream, the loop returns, has read everything, and has made the
    calls of one [iteration] per byte followed by the read that hit
    the end of the stream. *)
Lemma copy_loop_run (input : list byte) :
  forall fuel : nat,
    (List.length input < fuel)%nat ->
    copy_loop fuel delay input =
    Run (Ret tt) [] (flat_map (iteration delay) input ++ [EvGetc EOF]).
Proof.
  induction input as [|b input IH]; intros fuel Hfuel.
  - destruct fuel as [|fuel]; [simpl in Hfuel; lia|]. reflexivity.
  - destruct fuel as [|fuel]; [simpl in Hfuel; lia|].
    assert (Hlt : (List.length input < fuel)%nat) by (simpl in Hfuel; lia).
    specialize (IH fuel Hlt).
    cbn [copy_loop flat_map]. unfold bind at 1. cbn [fgetc res unread evs].
    rewrite of_uchar_not_EOF. cbn [negb].
    change (iteration delay b) with
      (EvGetc (CInt.of_uchar b) :: EvPutc b ::
       (if delay >? 4 then [EvUsleep delay] else [])).
    unfold fputc, usleep, emit, ret, bind.
    cbn [res unread evs]. rewrite to_uchar_of_uchar.
    destruct (delay >? 4); cbn [res unread evs]; rewrite IH;
      cbn [res unread evs app]; reflexivity.
Qed.

(** Without enough fuel the model of the loop gives up: the bound of
    [copy_loop_run] is the least one. *)
Lemma copy_loop_starved (input : list byte) :
  forall fuel : nat,
    (fuel <= List.length input)%nat ->
    res (copy_loop fuel delay input) = OutOfFuel.
Proof.
  induction input as [|b input IH]; intros fuel Hfuel.
  - destruct fuel; [reflexivity | simpl in Hfuel; lia].
  - destruct fuel as [|fuel]; [reflexivity|].
    assert (Hle : (fuel <= List.length input)%nat) by (simpl in Hfuel; lia).
    specialize (IH fuel Hle).
    cbn [copy_loop]. unfold bind at 1. cbn [fgetc res unread evs].
    rewrite of_uchar_not_EOF. cbn [negb].
    unfold fputc, usleep, emit, ret, bind.
    cbn [res unread evs].
    destruct (delay >? 4); cbn [res unread evs]; rewrite IH; reflexivity.
Qed.

End CopyLoop.

(** ** The tests of the program, as propositions *)

Section Tests.

Lemma gtb_true (a b : Z) : b < a -> (a >? b) = true.
Proof. intros H. rewrite Z.gtb_ltb. apply Z.ltb_lt. exact H. Qed.

Lemma gtb_false (a b : Z) : a <= b -> (a >? b) = false.
Proof. intros H. rewrite Z.gtb_ltb. apply Z.ltb_ge. exact H. Qed.

(** [if (delay > 4) usleep(delay);] on either side of the test. *)
Lemma pause_on (delay : Z) : 4 < delay -> pause delay = [EvUsleep delay].
Proof. intros H. unfold pause. rewrite (gtb_true _ _ H). reflexivity. Qed.

Lemma pause_off (delay : Z) : delay <= 4 -> pause delay = [].
Proof. intros H. unfold pause. rewrite (gtb_false _ _ H). reflexivity. Qed.

End Tests.

(** ** The rate and the delay *)

Section RateAndDelay.

(** No rate argument: the default stands. *)
Lemma main_bps_default (argv : list string) :
  (List.length argv <= 1)%nat -> main_bps argv = 960.
Proof.
  intros H. unfold main_bps, rate.
  rewrite gtb_false by lia. reflexivity.
Qed.

(** A rate argument: its parsed value, raised to 10 when below. *)
Lemma main_bps_supplied (argv : list string) :
  (1 < List.length argv)%nat ->
  main_bps argv = Z.max 10 (atoi (arg argv 1)).
Proof.
  intros H. unfold main_bps, rate.
  rewrite gtb_true by lia.
  destruct (atoi (arg argv 1) <? 10) eqn:E.
  - apply Z.ltb_lt in E. lia.
  - apply Z.ltb_ge in E. lia.
Qed.

Lemma main_bps_min (argv : list string) : 10 <= main_bps argv.
Proof.
  destruct (Nat.le_gt_cases (List.length argv) 1) as [H|H].
  - rewrite main_bps_default by exact H. lia.
  - rewrite main_bps_supplied by exact H. lia.
Qed.

(** On a rate of at least 10, C's truncating division and the floor
    division agree, and the delay is at most a tenth of a second. *)
Lemma delay_of_floor (bps : Z) :
  10 <= bps -> delay_of bps = 1000000 / bps.
Proof.
  intros H. unfold delay_of, CInt.div.
  change (1000 * 1000) with 1000000.
  apply Z.quot_div_nonneg; lia.
Qed.

Lemma delay_of_bounds (bps : Z) :
  10 <= bps -> 0 <= delay_of bps <= 100000.
Proof.
  intros H. rewrite delay_of_floor by exact H. split.
  - apply Z.div_pos; lia.
  - apply Z.div_le_upper_bound; lia.
Qed.

Lemma delay_of_fast (bps : Z) : 1000000 < bps -> delay_of bps = 0.
Proof.
  intros H. unfold delay_of, CInt.div.
  change (1000 * 1000) with 1000000.
  apply Z.quot_small. lia.
Qed.

(** [atoi] returns an [int]. *)
Lemma atoi_is_int (s : string) : CInt.INT_MIN <= atoi s <= CInt.INT_MAX.
Proof.
  unfold atoi, CInt.to_int, CInt.INT_MIN, CInt.INT_MAX.
  pose proof (Z.mod_pos_bound (strtol10 s + 2 ^ 31) (2 ^ 32) eq_refl).
  lia.
Qed.

End RateAndDelay.

(** ** Arguments that are not numbers *)

Section NonNumeric.

Lemma no_digit_skip_space (s : string) :
  no_digit s = true -> no_digit (skip_space s) = true.
Proof.
  induction s as [|c s IH]; intros H; [exact H|].
  cbn [skip_space]. destruct (isspace c); [|exact H].
  apply IH. cbn [no_digit] in H. apply andb_prop in H. tauto.
Qed.

Lemma digits_no_digit (acc : Z) (s : string) :
  no_digit s = true -> digits acc s = acc.
Proof.
  destruct s as [|c s]; intros H; [reflexivity|].
  cbn [no_digit] in H. apply andb_prop in H. destruct H as [H _].
  cbn [digits]. destruct (isdigit c); [discriminate H | reflexivity].
Qed.

Lemma atoi_no_digit (s : string) : no_digit s = true -> atoi s = 0.
Proof.
  intros H. apply no_digit_skip_space in H.
  unfold atoi, strtol10.
  destruct (skip_space s) as [|c r]; [reflexivity|].
  assert (Hr : no_digit r = true)
    by (cbn [no_digit] in H; apply andb_prop in H; tauto).
  rewrite (digits_no_digit 0 (String c r) H), (digits_no_digit 0 r Hr).
  destruct (Ascii.eqb c "-"); [reflexivity|].
  destruct (Ascii.eqb c "+"); reflexivity.
Qed.

End NonNumeric.

(** ** The calls of a whole invocation *)

Section Invocation.

Lemma format_leading :
  format (lit "%c[H%c[J") [27; 27] = leading_sequence.
Proof. reflexivity. Qed.

Lemma format_trailing :
  format (lit "%c[24;0H") [27] = trailing_sequence.
Proof. reflexivity. Qed.

Lemma format_usage :
  format (lit "usage: slow [speed] < input.txt" ++ [newline]) [] =
  usage_text ++ [newline].
Proof. reflexivity. Qed.

(** At most one argument after the program name: [main] returns 0
    after the leading sequence, the copy and the trailing sequence. *)
Lemma main_accepted (fuel : nat) (argv : list string) (input : list byte) :
  (List.length argv <= 2)%nat ->
  (List.length input < fuel)%nat ->
  main fuel argv input =
  Run (Ret 0) []
      (EvSetvbuf Stdout :: EvPrintf Stdout leading_sequence ::
       copy_phase (main_delay argv) input ++
       [EvPrintf Stdout trailing_sequence]).
Proof.
  intros Hargc Hfuel. unfold main.
  rewrite gtb_false by lia.
  fold (main_bps argv). fold (main_delay argv).
  unfold bind, ret, setvbuf_unbuffered, fprintf, emit.
  cbn [res unread evs].
  rewrite (copy_loop_run (main_delay argv) input fuel Hfuel).
  cbn [res unread evs]. rewrite format_leading, format_trailing.
  unfold copy_phase. rewrite app_nil_r. reflexivity.
Qed.

(** More arguments: [usage] ends the process before anything else. *)
Lemma main_rejected (fuel : nat) (argv : list string) (input : list byte) :
  (2 < List.length argv)%nat ->
  main fuel argv input =
  Run (Exit 1) input [EvPrintf Stderr (usage_text ++ [newline])].
Proof.
  intros Hargc. unfold main.
  rewrite gtb_true by lia.
  unfold usage, bind, exit, fprintf, emit.
  cbn [res unread evs]. rewrite format_usage. reflexivity.
Qed.

(** More fuel than [slow] gives changes nothing. *)
Lemma main_fuel (fuel : nat) (argv : list string) (input : list byte) :
  (List.length input < fuel)%nat ->
  main fuel argv input = slow argv input.
Proof.
  intros Hfuel. unfold slow.
  destruct (Nat.le_gt_cases (List.length argv) 2) as [H|H].
  - rewrite !main_accepted by lia. reflexivity.
  - rewrite !main_rejected by lia. reflexivity.
Qed.

Lemma slow_accepted (argv : list string) (input : list byte) :
  (List.length argv <= 2)%nat ->
  slow argv input =
  Run (Ret 0) []
      (EvSetvbuf Stdout :: EvPrintf Stdout leading_sequence ::
       copy_phase (main_delay argv) input ++
       [EvPrintf Stdout trailing_sequence]).
Proof. intros H. apply main_accepted; [exact H | lia]. Qed.

Lemma slow_rejected (argv : list string) (input : list byte) :
  (2 < List.length argv)%nat ->
  slow argv input =
  Run (Exit 1) input [EvPrintf Stderr (usage_text ++ [newline])].
Proof. intros H. apply main_rejected. exact H. Qed.

End Invocation.

(** ** Reading the log of the copy phase *)

Section Log.

Variable delay : Z.

Lemma written_iterations (input : list byte) (t : list event) :
  written Stdout (flat_map (iteration delay) input ++ t) =
  input ++ written Stdout t.
Proof.
  induction input as [|b input IH]; [reflexivity|].
  cbn [flat_map]. unfold iteration at 1, pause.
  destruct (delay >? 4); cbn [app written stream_eqb]; rewrite IH;
    reflexivity.
Qed.

Lemma written_stderr_iterations (input : list byte) (t : list event) :
  written Stderr (flat_map (iteration delay) input ++ t) =
  written Stderr t.
Proof.
  induction input as [|b input IH]; [reflexivity|].
  cbn [flat_map]. unfold iteration at 1, pause.
  destruct (delay >? 4); cbn [app written stream_eqb]; exact IH.
Qed.

Lemma printfs_iterations (s : stream) (input : list byte) (t : list event) :
  printfs s (flat_map (iteration delay) input ++ t) = printfs s t.
Proof.
  induction input as [|b input IH]; [reflexivity|].
  cbn [flat_map]. unfold iteration at 1, pause.
  destruct (delay >? 4); cbn [app printfs]; exact IH.
Qed.

Lemma sleeps_iterations (input : list byte) (t : list event) :
  sleeps (flat_map (iteration delay) input ++ t) =
  (if delay >? 4 then repeat delay (List.length input) else []) ++ sleeps t.
Proof.
  induction input as [|b input IH].
  - destruct (delay >? 4); reflexivity.
  - cbn [flat_map]. unfold iteration at 1, pause. revert IH.
    destruct (delay >? 4); intros IH; cbn [app sleeps List.length repeat];
      rewrite IH; reflexivity.
Qed.

End Log.

(** ** Where the written bytes sit in the log *)

Section PutcContext.

Variable delay : Z.

Lemma iteration_pause (b : byte) :
  iteration delay b = EvGetc (CInt.of_uchar b) :: EvPutc b :: pause delay.
Proof. reflexivity. Qed.

(** A write found after the pause of an iteration lies beyond it. *)
Lemma pause_skip (rest pre post : list event) (b : byte) :
  pause delay ++ rest = pre ++ EvPutc b :: post ->
  exists pre', pre = pause delay ++ pre' /\ rest = pre' ++ EvPutc b :: post.
Proof.
  unfold pause. destruct (delay >? 4); cbn [app]; intros H.
  - destruct pre as [|e pre]; cbn [app] in H; [discriminate H|].
    injection H as <- H. exists pre. split; [reflexivity | exact H].
  - exists pre. split; [reflexivity | exact H].
Qed.

(** What follows the iterations starts with a read. *)
Lemma iterations_head (input : list byte) (tail : list event) :
  exists c rest,
    flat_map (iteration delay) input ++ EvGetc EOF :: tail =
    EvGetc c :: rest.
Proof.
  destruct input as [|b input].
  - exists EOF, tail. reflexivity.
  - cbn [flat_map]. rewrite iteration_pause. cbn [app].
    eexists _, _. reflexivity.
Qed.

(** Every [fputc] of the copy phase comes right after the [fgetc] that
    read its byte, and is followed by the pause and the next [fgetc];
    before that [fgetc], either nothing (first byte) or the previous
    byte's [fputc] and pause. *)
Lemma putc_context (input : list byte) (tail : list event) :
  (forall b', ~ In (EvPutc b') tail) ->
  forall pre b post,
    flat_map (iteration delay) input ++ EvGetc EOF :: tail =
    pre ++ EvPutc b :: post ->
    exists pre' c post',
      pre = pre' ++ [EvGetc (CInt.of_uchar b)] /\
      post = pause delay ++ EvGetc c :: post' /\
      (pre' = [] \/
       exists pre'' b0, pre' = pre'' ++ EvPutc b0 :: pause delay).
Proof.
  intros Htail.
  induction input as [|a input IH]; intros pre b post H.
  - exfalso. apply (Htail b).
    assert (Hin : In (EvPutc b) (EvGetc EOF :: tail))
      by (cbn [flat_map app] in H; rewrite H; apply in_elt).
    destruct Hin as [Habs|Hin]; [discriminate Habs | exact Hin].
  - cbn [flat_map] in H. rewrite iteration_pause in H.
    cbn [app] in H. rewrite <- app_assoc in H.
    destruct pre as [|x pre]; cbn [app] in H; [discriminate H|].
    injection H as <- H.
    destruct pre as [|y pre]; cbn [app] in H.
    + injection H as <- H.
      destruct (iterations_head input tail) as (c & rest & Hrest).
      exists [], c, rest. rewrite <- H, Hrest.
      repeat split. left. reflexivity.
    + injection H as <- H.
      apply pause_skip in H. destruct H as (pre3 & -> & H).
      destruct (IH _ _ _ H) as (pre' & c & post' & -> & -> & Hfirst).
      exists (EvGetc (CInt.of_uchar a) :: EvPutc a :: pause delay ++ pre'),
             c, post'.
      split; [|split].
      * cbn [app]. rewrite app_assoc. reflexivity.
      * reflexivity.
      * right. destruct Hfirst as [->|(pre'' & b0 & ->)].
        -- exists [EvGetc (CInt.of_uchar a)], a.
           rewrite app_nil_r. reflexivity.
        -- exists (EvGetc (CInt.of_uchar a) :: EvPutc a ::
                   pause delay ++ pre''), b0.
           cbn [app]. rewrite app_assoc. reflexivity.
Qed.

End PutcContext.

(** ** Output framing, usage error and exit status *)

Section Streams.

Variable argv : list string.
Variable input : list byte.

Lemma accepted_stdout :
  (List.length argv <= 2)%nat ->
  written Stdout (evs (slow argv input)) =
  leading_sequence ++ input ++ trailing_sequence.
Proof.
  intros H. rewrite (slow_accepted argv input H). cbn [evs].
  unfold copy_phase. cbn [written stream_eqb].
  rewrite <- app_assoc, written_iterations.
  cbn [written stream_eqb app]. rewrite app_nil_r. reflexivity.
Qed.

Lemma accepted_stderr :
  (List.length argv <= 2)%nat ->
  written Stderr (evs (slow argv input)) = [].
Proof.
  intros H. rewrite (slow_accepted argv input H). cbn [evs].
  unfold copy_phase. cbn [written stream_eqb].
  rewrite <- app_assoc, written_stderr_iterations. reflexivity.
Qed.

Lemma accepted_printfs :
  (List.length argv <= 2)%nat ->
  printfs Stdout (evs (slow argv input)) =
  [leading_sequence; trailing_sequence].
Proof.
  intros H. rewrite (slow_accepted argv input H). cbn [evs].
  unfold copy_phase. cbn [printfs stream_eqb].
  rewrite <- app_assoc, printfs_iterations. reflexivity.
Qed.

Lemma accepted_sleeps :
  (List.length argv <= 2)%nat ->
  sleeps (evs (slow argv input)) =
  if main_delay argv >? 4
  then repeat (main_delay argv) (List.length input) else [].
Proof.
  intros H. rewrite (slow_accepted argv input H). cbn [evs].
  unfold copy_phase. cbn [sleeps].
  rewrite <- app_assoc, sleeps_iterations. cbn [sleeps app].
  rewrite app_nil_r. reflexivity.
Qed.

Lemma paced_sleeps :
  (List.length argv <= 2)%nat ->
  4 < main_delay argv ->
  sleeps (evs (slow argv input)) =
  repeat (main_delay argv) (List.length input).
Proof.
  intros H Hd. rewrite (accepted_sleeps H), (gtb_true _ _ Hd). reflexivity.
Qed.

Lemma unpaced_sleeps :
  (List.length argv <= 2)%nat ->
  main_delay argv <= 4 ->
  sleeps (evs (slow argv input)) = [].
Proof.
  intros H Hd. rewrite (accepted_sleeps H), (gtb_false _ _ Hd). reflexivity.
Qed.

End Streams.

(** Claim C1.  Whatever the input bytes (none, NUL bytes, bytes of a
    multi-byte encoding), an invocation that gets past the argument
    check writes to standard output the leading control sequence
    ESC [ H ESC [ J, then the input bytes unchanged and in order, then
    the trailing control sequence ESC [ 2 4 ; 0 H; each of the two
    sequences is written by exactly one [fprintf], whatever the length
    of the input. *)
Theorem framed_copy (argv : list string) (input : list byte) :
  (List.length argv <= 2)%nat ->
  written Stdout (evs (slow argv input)) =
    [x1b; "["; "H"; x1b; "["; "J"]%byte ++ input ++
    [x1b; "["; "2"; "4"; ";"; "0"; "H"]%byte /\
  printfs Stdout (evs (slow argv input)) =
    [ [x1b; "["; "H"; x1b; "["; "J"]%byte;
      [x1b; "["; "2"; "4"; ";"; "0"; "H"]%byte ].
Proof.
  intros H. split.
  - exact (accepted_stdout argv input H).
  - exact (accepted_printfs argv input H).
Qed.

(** The claim at an input with a NUL byte, 0xff and a three-byte UTF-8
    character, no rate argument. *)
Lemma framed_copy_witness :
  (List.length ["slow"%string] <= 2)%nat /\
  written Stdout
    (evs (slow ["slow"%string] [x00; xff; xe2; x98; x83]%byte)) =
  [x1b; "["; "H"; x1b; "["; "J"; x00; xff; xe2; x98; x83;
   x1b; "["; "2"; "4"; ";"; "0"; "H"]%byte.
Proof.
  split.
  - simpl. lia.
  - apply (framed_copy ["slow"%string] [x00; xff; xe2; x98; x83]%byte).
    simpl. lia.
Defined.

(** Claim C4.  With two or more arguments after the program name the
    program writes the usage text [usage: slow [speed] < input.txt], as
    one line, to standard error and nothing else anywhere, leaves
    standard output and standard input untouched, and exits with
    status 1. *)
Theorem usage_error (argv : list string) (input : list byte) :
  (2 < List.length argv)%nat ->
  written Stderr (evs (slow argv input)) =
    lit "usage: slow [speed] < input.txt" ++ [newline] /\
  exit_status (slow argv input) = Some 1 /\
  written Stdout (evs (slow argv input)) = [] /\
  evs (slow argv input) =
    [EvPrintf Stderr (lit "usage: slow [speed] < input.txt" ++ [newline])] /\
  unread (slow argv input) = input.
Proof.
  intros H. rewrite (slow_rejected argv input H).
  cbn [evs unread written stream_eqb]. rewrite app_nil_r.
  repeat split.
Qed.

Lemma usage_error_witness :
  (2 < List.length ["slow"; "100"; "200"]%string)%nat /\
  exit_status (slow ["slow"; "100"; "200"]%string ["A"; "B"]%byte) = Some 1 /\
  written Stdout
    (evs (slow ["slow"; "100"; "200"]%string ["A"; "B"]%byte)) = [].
Proof.
  pose proof (usage_error ["slow"; "100"; "200"]%string ["A"; "B"]%byte)
    as H.
  split; [simpl; lia|].
  destruct H as (_ & Hexit & Hout & _); [simpl; lia|].
  split; [exact Hexit | exact Hout].
Defined.

(** Claim C7.  On every finite input, empty or not, an invocation that
    gets past the argument check reads to the end of the stream, writes
    the trailing control sequence right after the read that met the end
    of the stream (so after the last input byte), writes nothing to
    standard error, and returns 0 from [main]; any fuel above the input
    length gives this same run. *)
Theorem clean_exit (argv : list string) (input : list byte) :
  (List.length argv <= 2)%nat ->
  res (slow argv input) = Ret 0 /\
  exit_status (slow argv input) = Some 0 /\
  unread (slow argv input) = [] /\
  written Stderr (evs (slow argv input)) = [] /\
  (exists before,
     evs (slow argv input) =
       before ++ [EvGetc EOF; EvPrintf Stdout trailing_sequence] /\
     written Stdout before = leading_sequence ++ input) /\
  (forall fuel : nat,
     (List.length input < fuel)%nat ->
     main fuel argv input = slow argv input).
Proof.
  intros H. split; [|split; [|split; [|split; [|split]]]].
  - rewrite (slow_accepted argv input H). reflexivity.
  - rewrite (slow_accepted argv input H). reflexivity.
  - rewrite (slow_accepted argv input H). reflexivity.
  - exact (accepted_stderr argv input H).
  - exists (EvSetvbuf Stdout :: EvPrintf Stdout leading_sequence ::
            flat_map (iteration (main_delay argv)) input).
    split.
    + rewrite (slow_accepted argv input H). cbn [evs]. unfold copy_phase.
      cbn [app]. rewrite <- app_assoc. reflexivity.
    + cbn [written stream_eqb].
      rewrite <- (app_nil_r (flat_map _ input)), written_iterations.
      cbn [written]. rewrite app_nil_r. reflexivity.
  - intros fuel Hfuel. exact (main_fuel fuel argv input Hfuel).
Qed.

(** Empty input, default rate: the two control sequences and status 0. *)
Lemma clean_exit_witness :
  (List.length ["slow"%string] <= 2)%nat /\
  exit_status (slow ["slow"%string] []) = Some 0.
Proof.
  split.
  - simpl. lia.
  - apply (clean_exit ["slow"%string] []). simpl. lia.
Defined.

(** ** The rate in effect and the delay derived from it *)

(** Claim C2.  A rate argument whose parsed value is below 10 (negative
    values and the 0 of a non-numeric argument included) puts the rate
    10 in effect: the delay is computed from 10, and every suspension of
    the run is of 1000000 / 10 microseconds.  An argument without any
    digit parses to 0, and the run with it is an ordinary one: nothing
    on standard error, [main] returns 0. *)
Theorem low_rate_is_clamped (prog a : string) (input : list byte) :
  (atoi a < 10 ->
   main_bps [prog; a] = 10 /\
   main_delay [prog; a] = delay_of 10 /\
   sleeps (evs (slow [prog; a] input)) =
     repeat (1000000 / 10) (List.length input)) /\
  (no_digit a = true ->
   atoi a = 0 /\
   main_bps [prog; a] = 10 /\
   res (slow [prog; a] input) = Ret 0 /\
   written Stderr (evs (slow [prog; a] input)) = []).
Proof.
  assert (Hargc : (List.length [prog; a] <= 2)%nat) by (simpl; lia).
  assert (Hlow : atoi a < 10 -> main_bps [prog; a] = 10).
  { intros Ha. rewrite main_bps_supplied by (simpl; lia).
    change (arg [prog; a] 1) with a. lia. }
  split.
  - intros Ha. specialize (Hlow Ha). split; [exact Hlow|]. split.
    + unfold main_delay. rewrite Hlow. reflexivity.
    + rewrite (accepted_sleeps [prog; a] input Hargc).
      unfold main_delay. rewrite Hlow. reflexivity.
  - intros Ha. apply atoi_no_digit in Ha.
    split; [exact Ha|]. split; [apply Hlow; lia|]. split.
    + rewrite (slow_accepted [prog; a] input Hargc). reflexivity.
    + exact (accepted_stderr [prog; a] input Hargc).
Qed.

(** A negative rate and a word in place of the rate. *)
Lemma low_rate_is_clamped_witness :
  (atoi "-5" < 10 /\ main_bps ["slow"; "-5"]%string = 10) /\
  (no_digit "fast" = true /\
   main_bps ["slow"; "fast"]%string = 10 /\
   res (slow ["slow"; "fast"]%string ["A"]%byte) = Ret 0).
Proof.
  split.
  - split; [reflexivity|].
    apply (proj1 (low_rate_is_clamped "slow" "-5" [])). reflexivity.
  - split; [reflexivity|].
    destruct (proj2 (low_rate_is_clamped "slow" "fast" ["A"]%byte))
      as (_ & Hbps & Hres & _); [reflexivity|].
    split; [exact Hbps | exact Hres].
Defined.

(** Claim C3.  In an invocation that gets past the argument check the
    rate R in effect is at least 10 (it is the default 960 when no rate
    argument is given), the delay is 1,000,000 / R with the quotient
    truncated (rounding towards zero and rounding down agree here), and
    this one value is the length of every suspension of the run. *)
Theorem delay_is_truncated_quotient (argv : list string) (input : list byte) :
  (List.length argv <= 2)%nat ->
  10 <= main_bps argv /\
  main_delay argv = Z.quot 1000000 (main_bps argv) /\
  main_delay argv = 1000000 / main_bps argv /\
  (forall usec, In usec (sleeps (evs (slow argv input))) ->
                usec = Z.quot 1000000 (main_bps argv)) /\
  ((List.length argv <= 1)%nat ->
   main_bps argv = 960 /\ main_delay argv = 1041).
Proof.
  intros H. pose proof (main_bps_min argv) as Hmin.
  split; [exact Hmin|]. split; [reflexivity|].
  split; [exact (delay_of_floor _ Hmin)|]. split.
  - intros usec Hin. rewrite (accepted_sleeps argv input H) in Hin.
    destruct (main_delay argv >? 4); [|destruct Hin].
    apply repeat_spec in Hin. exact Hin.
  - intros H1. unfold main_delay. rewrite (main_bps_default argv H1).
    split; reflexivity.
Qed.

(** The rate 480 of the program's own example: 2083 microseconds. *)
Lemma delay_is_truncated_quotient_witness :
  (List.length ["slow"; "480"]%string <= 2)%nat /\
  main_delay ["slow"; "480"]%string = Z.quot 1000000 480 /\
  main_delay ["slow"; "480"]%string = 2083.
Proof.
  split; [simpl; lia|].
  destruct (delay_is_truncated_quotient ["slow"; "480"]%string ["A"]%byte)
    as (_ & Hq & _); [simpl; lia|].
  split; [exact Hq | reflexivity].
Defined.

(** Claim C8.  In every invocation that reaches the computation of the
    delay the divisor is at least 10 (the default 960, or the parsed
    argument raised to 10), hence neither zero nor negative; the delay
    is the true quotient of 1,000,000 by it, and it depends on the
    command line through the rate only. *)
Theorem rate_positive_at_division (argv : list string) :
  (List.length argv <= 2)%nat ->
  10 <= main_bps argv /\
  main_bps argv <> 0 /\
  ((List.length argv <= 1)%nat -> main_bps argv = 960) /\
  ((1 < List.length argv)%nat ->
   main_bps argv = Z.max 10 (atoi (arg argv 1))) /\
  main_delay argv = delay_of (main_bps argv) /\
  main_bps argv * main_delay argv <= 1000000
    < main_bps argv * (main_delay argv + 1) /\
  (forall argv' : list string,
     main_bps argv' = main_bps argv -> main_delay argv' = main_delay argv).
Proof.
  intros _. pose proof (main_bps_min argv) as Hmin.
  split; [exact Hmin|]. split; [lia|].
  split; [exact (main_bps_default argv)|].
  split; [exact (main_bps_supplied argv)|].
  split; [reflexivity|]. split.
  - unfold main_delay. rewrite (delay_of_floor _ Hmin).
    pose proof (Z.mul_div_le 1000000 (main_bps argv)).
    pose proof (Z.mul_succ_div_gt 1000000 (main_bps argv)).
    lia.
  - intros argv' Heq. unfold main_delay. rewrite Heq. reflexivity.
Qed.

(** A rate argument of 0 is raised to 10 before the division. *)
Lemma rate_positive_at_division_witness :
  (List.length ["slow"; "0"]%string <= 2)%nat /\
  10 <= main_bps ["slow"; "0"]%string.
Proof.
  split; [simpl; lia|].
  apply (rate_positive_at_division ["slow"; "0"]%string). simpl. lia.
Defined.

(** Claim C10.  In every invocation that gets past the argument check
    the delay is between 0 and 100,000 microseconds; a rate argument
    that parses to more than 1,000,000 gives the delay 0, and the run
    then requests no suspension at all. *)
Theorem delay_bounds (argv : list string) (input : list byte) :
  (List.length argv <= 2)%nat ->
  0 <= main_delay argv <= 100000 /\
  ((1 < List.length argv)%nat ->
   1000000 < atoi (arg argv 1) ->
   main_delay argv = 0 /\ sleeps (evs (slow argv input)) = []).
Proof.
  intros H. split.
  - apply delay_of_bounds, main_bps_min.
  - intros H1 Hbig.
    assert (Hd : main_delay argv = 0).
    { unfold main_delay. apply delay_of_fast.
      rewrite (main_bps_supplied argv H1). lia. }
    split; [exact Hd|].
    rewrite (accepted_sleeps argv input H), Hd. reflexivity.
Qed.

Lemma delay_bounds_witness :
  (List.length ["slow"; "1000001"]%string <= 2)%nat /\
  (1 < List.length ["slow"; "1000001"]%string)%nat /\
  1000000 < atoi (arg ["slow"; "1000001"]%string 1) /\
  main_delay ["slow"; "1000001"]%string = 0.
Proof.
  split; [simpl; lia|]. split; [simpl; lia|]. split; [reflexivity|].
  destruct (delay_bounds ["slow"; "1000001"]%string ["A"; "B"]%byte)
    as (_ & Hfast); [simpl; lia|].
  apply Hfast; [simpl; lia | reflexivity].
Defined.

(** ** The order of the calls in the copy phase *)

Section Order.

Variable argv : list string.
Variable input : list byte.
Hypothesis Hargc : (List.length argv <= 2)%nat.

(** The context of a written byte, in the log of the whole run. *)
Lemma slow_putc_context (pre post : list event) (b : byte) :
  evs (slow argv input) = pre ++ EvPutc b :: post ->
  exists pre' c post',
    pre = pre' ++ [EvGetc (CInt.of_uchar b)] /\
    post = pause (main_delay argv) ++ EvGetc c :: post' /\
    (pre' = [EvSetvbuf Stdout; EvPrintf Stdout leading_sequence] \/
     exists pre'' b0, pre' = pre'' ++ EvPutc b0 :: pause (main_delay argv)).
Proof.
  rewrite (slow_accepted argv input Hargc). cbn [evs]. intros H.
  destruct pre as [|x pre]; cbn [app] in H; [discriminate H|].
  injection H as <- H.
  destruct pre as [|y pre]; cbn [app] in H; [discriminate H|].
  injection H as <- H.
  unfold copy_phase in H. rewrite <- app_assoc in H. cbn [app] in H.
  apply putc_context in H.
  - destruct H as (pre' & c & post' & -> & -> & Hfirst).
    exists (EvSetvbuf Stdout :: EvPrintf Stdout leading_sequence :: pre'),
           c, post'.
    split; [reflexivity|]. split; [reflexivity|].
    destruct Hfirst as [->|(pre'' & b0 & ->)].
    + left. reflexivity.
    + right.
      exists (EvSetvbuf Stdout :: EvPrintf Stdout leading_sequence :: pre''),
             b0.
      reflexivity.
  - intros b' [Habs|[]]. discriminate Habs.
Qed.

Lemma slow_delay_after_each_byte :
  4 < main_delay argv ->
  delay_after_each_byte (evs (slow argv input)) (main_delay argv).
Proof.
  intros Hd pre b post H.
  destruct (slow_putc_context pre post b H) as (_ & c & post' & _ & -> & _).
  rewrite (pause_on _ Hd). eexists. reflexivity.
Qed.

End Order.

Lemma total_repeat (d : Z) (n : nat) : total (repeat d n) = Z.of_nat n * d.
Proof.
  induction n as [|n IH]; [reflexivity|].
  cbn [repeat total fold_right]. fold (total (repeat d n)).
  rewrite IH. lia.
Qed.

(** Claim C5.  The copy phase of an accepted invocation is, for each
    input byte in turn, the read of the byte, its write as the very next
    call, and then the suspension [usleep(delay)] if and only if the
    delay is above 4 microseconds, before the next read; with a delay of
    4 or less no suspension is requested in the whole run. *)
Theorem copy_loop_order (argv : list string) (input : list byte) :
  (List.length argv <= 2)%nat ->
  evs (slow argv input) =
    EvSetvbuf Stdout :: EvPrintf Stdout leading_sequence ::
    flat_map
      (fun b => EvGetc (CInt.of_uchar b) :: EvPutc b ::
                (if main_delay argv >? 4
                 then [EvUsleep (main_delay argv)] else []))
      input ++
    [EvGetc EOF; EvPrintf Stdout trailing_sequence] /\
  (forall pre b post,
     evs (slow argv input) = pre ++ EvPutc b :: post ->
     exists pre' c post',
       pre = pre' ++ [EvGetc (CInt.of_uchar b)] /\
       (4 < main_delay argv /\
        post = EvUsleep (main_delay argv) :: EvGetc c :: post' \/
        main_delay argv <= 4 /\ post = EvGetc c :: post')) /\
  (4 < main_delay argv ->
   sleeps (evs (slow argv input)) =
   repeat (main_delay argv) (List.length input)) /\
  (main_delay argv <= 4 -> sleeps (evs (slow argv input)) = []).
Proof.
  intros H. split; [|split; [|split]].
  - rewrite (slow_accepted argv input H). cbn [evs]. unfold copy_phase.
    rewrite <- app_assoc. reflexivity.
  - intros pre b post Heq.
    destruct (slow_putc_context argv input H pre post b Heq)
      as (pre' & c & post' & -> & -> & _).
    exists pre', c, post'. split; [reflexivity|].
    destruct (Z.lt_ge_cases 4 (main_delay argv)) as [Hd|Hd].
    + left. rewrite (pause_on _ Hd). split; [exact Hd | reflexivity].
    + right. rewrite (pause_off _ Hd). split; [exact Hd | reflexivity].
  - exact (paced_sleeps argv input H).
  - exact (unpaced_sleeps argv input H).
Qed.

(** Two bytes at the default rate, and at a rate whose delay is 2. *)
Lemma copy_loop_order_witness :
  (List.length ["slow"%string] <= 2)%nat /\
  4 < main_delay ["slow"%string] /\
  sleeps (evs (slow ["slow"%string] ["A"; "B"]%byte)) = [1041; 1041] /\
  main_delay ["slow"; "500000"]%string <= 4 /\
  sleeps (evs (slow ["slow"; "500000"]%string ["A"; "B"]%byte)) = [].
Proof.
  split; [simpl; lia|]. split; [reflexivity|]. split.
  - destruct (copy_loop_order ["slow"%string] ["A"; "B"]%byte)
      as (_ & _ & Hslow & _); [simpl; lia|].
    apply Hslow. reflexivity.
  - split; [discriminate|].
    destruct (copy_loop_order ["slow"; "500000"]%string ["A"; "B"]%byte)
      as (_ & _ & _ & Hfast); [simpl; lia|].
    apply Hfast. discriminate.
Defined.

(** ** One suspension per byte, after the byte *)

Section Pacing.

Variable argv : list string.
Variable input : list byte.
Hypothesis Hargc : (List.length argv <= 2)%nat.

(** The run ends with the last byte's write, its pause, the read that
    meets the end of the stream, and the trailing sequence. *)
Lemma slow_last_byte :
  input <> [] ->
  exists before,
    evs (slow argv input) =
    before ++
    EvPutc (last input x00) :: pause (main_delay argv) ++
    [EvGetc EOF; EvPrintf Stdout trailing_sequence].
Proof.
  intros Hne. rewrite (slow_accepted argv input Hargc). cbn [evs].
  unfold copy_phase.
  assert (Hsplit :
    flat_map (iteration (main_delay argv)) input =
    flat_map (iteration (main_delay argv)) (removelast input) ++
    EvGetc (CInt.of_uchar (last input x00)) :: EvPutc (last input x00) ::
    pause (main_delay argv)).
  { rewrite (app_removelast_last x00 Hne) at 1.
    rewrite flat_map_app. cbn [flat_map]. rewrite app_nil_r. reflexivity. }
  rewrite Hsplit.
  exists (EvSetvbuf Stdout :: EvPrintf Stdout leading_sequence ::
          flat_map (iteration (main_delay argv)) (removelast input) ++
          [EvGetc (CInt.of_uchar (last input x00))]).
  cbn [app]. rewrite <- !app_assoc. reflexivity.
Qed.

Lemma slow_delay_before_later_bytes :
  4 < main_delay argv ->
  delay_before_later_bytes (evs (slow argv input)) (main_delay argv).
Proof.
  intros Hd pre b post H (b0 & Hin).
  destruct (slow_putc_context argv input Hargc pre post b H)
    as (pre' & _ & _ & -> & _ & Hfirst).
  destruct Hfirst as [->|(pre'' & b1 & ->)].
  - exfalso. cbn [app] in Hin.
    destruct Hin as [Habs|[Habs|[Habs|[]]]]; discriminate Habs.
  - rewrite (pause_on _ Hd).
    exists (pre'' ++ [EvPutc b1]). rewrite <- !app_assoc. reflexivity.
Qed.

Lemma slow_no_delay_before_first_byte :
  no_delay_before_first_byte (evs (slow argv input)).
Proof.
  intros pre b post H Hfirst usec Hin.
  destruct (slow_putc_context argv input Hargc pre post b H)
    as (pre' & _ & _ & -> & _ & Hpre).
  destruct Hpre as [->|(pre'' & b1 & ->)].
  - cbn [app] in Hin.
    destruct Hin as [Habs|[Habs|[Habs|[]]]]; discriminate Habs.
  - apply (Hfirst b1). rewrite <- app_assoc. apply in_elt.
Qed.

End Pacing.

(** Claim C9.  On a non-empty input of L bytes, with a delay above 4
    microseconds, an accepted invocation requests exactly L suspensions,
    each of the delay, for a total of L times the delay; each is the
    very next call after a byte is written, the last byte included, so
    the run ends with the last byte, one full suspension, the read that
    meets the end of the stream and the trailing control sequence. *)
Theorem one_pause_per_byte (argv : list string) (input : list byte) :
  (List.length argv <= 2)%nat ->
  input <> [] ->
  4 < main_delay argv ->
  sleeps (evs (slow argv input)) =
    repeat (main_delay argv) (List.length input) /\
  List.length (sleeps (evs (slow argv input))) = List.length input /\
  total (sleeps (evs (slow argv input))) =
    Z.of_nat (List.length input) * main_delay argv /\
  delay_after_each_byte (evs (slow argv input)) (main_delay argv) /\
  (exists before,
     evs (slow argv input) =
     before ++
     [EvPutc (last input x00); EvUsleep (main_delay argv);
      EvGetc EOF; EvPrintf Stdout trailing_sequence]).
Proof.
  intros H Hne Hd.
  pose proof (paced_sleeps argv input H Hd) as Hs.
  split; [exact Hs|]. rewrite Hs.
  split; [apply repeat_length|]. split; [apply total_repeat|].
  split; [exact (slow_delay_after_each_byte argv input H Hd)|].
  destruct (slow_last_byte argv input H Hne) as (before & Heq).
  exists before. rewrite Heq, (pause_on _ Hd). reflexivity.
Qed.

(** Three bytes at the default rate: three suspensions of 1041. *)
Lemma one_pause_per_byte_witness :
  (List.length ["slow"%string] <= 2)%nat /\
  [xe2; x98; x83]%byte <> [] /\
  4 < main_delay ["slow"%string] /\
  total (sleeps (evs (slow ["slow"%string] [xe2; x98; x83]%byte))) = 3123.
Proof.
  split; [simpl; lia|]. split; [discriminate|]. split; [reflexivity|].
  destruct (one_pause_per_byte ["slow"%string] [xe2; x98; x83]%byte)
    as (_ & _ & Htotal & _);
    [simpl; lia | discriminate | reflexivity |].
  exact Htotal.
Defined.

(** ** The delay comes after the byte, not before *)

(** Counterexample to claim C6 as worded.  The first byte of the input
    is written with no suspension before it: at the default rate, the log of a one-byte input has the write
    of the byte ahead of the only suspension, so the reading "each
    output byte is preceded by the delay" fails. *)
Lemma first_byte_is_not_delayed :
  ~ (written Stdout (evs (slow ["slow"%string] ["A"]%byte)) =
       leading_sequence ++ ["A"]%byte ++ trailing_sequence /\
     (4 < main_delay ["slow"%string] ->
      delay_before_each_byte (evs (slow ["slow"%string] ["A"]%byte))
                             (main_delay ["slow"%string]))).
Proof.
  intros [_ H].
  assert (Hd : 4 < main_delay ["slow"%string]) by reflexivity.
  specialize (H Hd
    [EvSetvbuf Stdout; EvPrintf Stdout leading_sequence; EvGetc 65]
    "A"%byte
    [EvUsleep 1041; EvGetc EOF; EvPrintf Stdout trailing_sequence]
    eq_refl).
  cbn [In] in H.
  destruct H as [Habs|[Habs|[Habs|[]]]]; discriminate Habs.
Qed.

(** Claim C6, amended.  In the copy phase of an accepted invocation
    every input byte reaches standard output, in the order read; when
    the delay is above 4 microseconds each byte written is followed by
    the delay as the very next call, every byte but the first is
    thereby preceded by the delay of the byte before it, and the first
    byte has no suspension before it; with a delay of 4 or less there
    is no suspension at all. *)
Theorem delay_follows_each_byte (argv : list string) (input : list byte) :
  (List.length argv <= 2)%nat ->
  written Stdout (evs (slow argv input)) =
    leading_sequence ++ input ++ trailing_sequence /\
  (4 < main_delay argv ->
   delay_after_each_byte (evs (slow argv input)) (main_delay argv) /\
   delay_before_later_bytes (evs (slow argv input)) (main_delay argv)) /\
  no_delay_before_first_byte (evs (slow argv input)) /\
  (main_delay argv <= 4 -> sleeps (evs (slow argv input)) = []).
Proof.
  intros H. split; [exact (accepted_stdout argv input H)|].
  split; [|split].
  - intros Hd. split.
    + exact (slow_delay_after_each_byte argv input H Hd).
    + exact (slow_delay_before_later_bytes argv input H Hd).
  - exact (slow_no_delay_before_first_byte argv input H).
  - exact (unpaced_sleeps argv input H).
Qed.

(** Two bytes at the default rate: the suspension sits right after the
    first byte, hence before the second. *)
Lemma delay_follows_each_byte_witness :
  (List.length ["slow"%string] <= 2)%nat /\
  4 < main_delay ["slow"%string] /\
  exists post',
    [EvUsleep 1041; EvGetc 66; EvPutc "B"; EvUsleep 1041; EvGetc EOF;
     EvPrintf Stdout trailing_sequence] =
    EvUsleep (main_delay ["slow"%string]) :: post'.
Proof.
  split; [simpl; lia|]. split; [reflexivity|].
  destruct (delay_follows_each_byte ["slow"%string] ["A"; "B"]%byte)
    as (_ & Hafter & _); [simpl; lia|].
  destruct Hafter as [Hafter _]; [reflexivity|].
  apply (Hafter
    [EvSetvbuf Stdout; EvPrintf Stdout leading_sequence; EvGetc 65]
    "A"%byte).
  reflexivity.
Defined.

(** * Further properties of [main] *)

(** ** Buffering is switched off before the first write *)

Section Buffering.

Variable delay : Z.


End Buffering.



(** ** The exit status and the two output streams *)

(** Whatever the command line and the input, the process ends with
    status 1 when there are more than two entries in [argv] and with
    status 0 otherwise; the status is 0 exactly when standard error is
    untouched, and a run never writes to both output streams. *)
Theorem status_tells_usage (argv : list string) (input : list byte) :
  exit_status (slow argv input) =
    Some (if (2 <? List.length argv)%nat then 1 else 0) /\
  (exit_status (slow argv input) = Some 0 <->
   written Stderr (evs (slow argv input)) = []) /\
  (written Stdout (evs (slow argv input)) = [] \/
   written Stderr (evs (slow argv input)) = []).
Proof.
  destruct (Nat.le_gt_cases (List.length argv) 2) as [H|H].
  - replace (2 <? List.length argv)%nat with false
      by (symmetry; apply Nat.ltb_ge; exact H).
    pose proof (accepted_stderr argv input H) as Herr.
    rewrite Herr. rewrite (slow_accepted argv input H).
    split; [reflexivity|]. split; [|right; reflexivity].
    split; reflexivity.
  - replace (2 <? List.length argv)%nat with true
      by (symmetry; apply Nat.ltb_lt; exact H).
    rewrite (slow_rejected argv input H).
    split; [reflexivity|]. split; [|left; reflexivity].
    split; intros Habs; discriminate Habs.
Qed.

(** ** Which rates are paced, and how closely *)

Section Threshold.

(** A delay above 4 microseconds is a rate of at most 200000. *)
Lemma delay_above_floor (bps : Z) :
  10 <= bps -> (4 < delay_of bps <-> bps <= 200000).
Proof.
  intros H. rewrite (delay_of_floor bps H). split; intros Hd.
  - destruct (Z.le_gt_cases bps 200000) as [Hle|Hgt]; [exact Hle|].
    exfalso.
    assert (1000000 / bps < 5) by (apply Z.div_lt_upper_bound; lia).
    lia.
  - assert (5 <= 1000000 / bps) by (apply Z.div_le_lower_bound; lia).
    lia.
Qed.

Lemma delay_of_antitone (r1 r2 : Z) :
  0 < r1 <= r2 -> delay_of r2 <= delay_of r1.
Proof.
  intros H. unfold delay_of, CInt.div.
  apply Z.quot_le_compat_l; [vm_compute; discriminate | exact H].
Qed.

End Threshold.

(** An accepted invocation on a non-empty input suspends itself at all
    exactly when the rate in effect is at most 200000 bytes per second;
    above that the copy is not paced. *)
Theorem paced_iff_rate_at_most_200000
        (argv : list string) (input : list byte) :
  (List.length argv <= 2)%nat ->
  input <> [] ->
  (sleeps (evs (slow argv input)) <> [] <-> main_bps argv <= 200000).
Proof.
  intros H Hne. rewrite <- (delay_above_floor _ (main_bps_min argv)).
  fold (main_delay argv). split.
  - intros Hs. destruct (Z.lt_ge_cases 4 (main_delay argv)) as [Hd|Hd];
      [exact Hd|].
    exfalso. apply Hs. exact (unpaced_sleeps argv input H Hd).
  - intros Hd. rewrite (paced_sleeps argv input H Hd).
    destruct input as [|b input]; [contradiction|]. discriminate.
Qed.

Lemma paced_iff_rate_at_most_200000_witness :
  (List.length ["slow"; "200000"]%string <= 2)%nat /\
  ["A"]%byte <> [] /\
  sleeps (evs (slow ["slow"; "200000"]%string ["A"]%byte)) <> [].
Proof.
  split; [simpl; lia|]. split; [discriminate|].
  apply (paced_iff_rate_at_most_200000 ["slow"; "200000"]%string ["A"]%byte).
  - simpl. lia.
  - discriminate.
  - discriminate.
Defined.

(** Every [usleep] of an accepted invocation is asked for between 5 and
    100000 microseconds: never a zero or negative time, never a second
    or more. *)
Theorem usleep_argument_range (argv : list string) (input : list byte) :
  (List.length argv <= 2)%nat ->
  forall usec, In usec (sleeps (evs (slow argv input))) ->
               5 <= usec <= 100000.
Proof.
  intros H usec Hin.
  pose proof (delay_of_bounds _ (main_bps_min argv)) as Hb.
  fold (main_delay argv) in Hb.
  destruct (Z.lt_ge_cases 4 (main_delay argv)) as [Hd|Hd].
  - rewrite (paced_sleeps argv input H Hd) in Hin.
    apply repeat_spec in Hin. lia.
  - rewrite (unpaced_sleeps argv input H Hd) in Hin. destruct Hin.
Qed.

Lemma usleep_argument_range_witness :
  (List.length ["slow"; "7"]%string <= 2)%nat /\
  In 100000 (sleeps (evs (slow ["slow"; "7"]%string ["A"]%byte))) /\
  5 <= 100000 <= 100000.
Proof.
  split; [simpl; lia|]. split; [left; reflexivity|].
  apply (usleep_argument_range ["slow"; "7"]%string ["A"]%byte).
  - simpl. lia.
  - left. reflexivity.
Defined.

(** The truncation of the delay only ever speeds the copy up, and by
    less than one microsecond per byte: for a paced run over L bytes at
    rate R, the total T of the suspensions satisfies
    R * T <= 1000000 * L <= R * T + (R - 1) * L. *)
Theorem pacing_undershoot (argv : list string) (input : list byte) :
  (List.length argv <= 2)%nat ->
  4 < main_delay argv ->
  main_bps argv * total (sleeps (evs (slow argv input)))
    <= 1000000 * Z.of_nat (List.length input) /\
  1000000 * Z.of_nat (List.length input)
    <= main_bps argv * total (sleeps (evs (slow argv input)))
       + (main_bps argv - 1) * Z.of_nat (List.length input).
Proof.
  intros H Hd. rewrite (paced_sleeps argv input H Hd), total_repeat.
  pose proof (main_bps_min argv) as Hmin.
  assert (Hq : main_bps argv * main_delay argv <= 1000000
               < main_bps argv * (main_delay argv + 1)).
  { unfold main_delay. rewrite (delay_of_floor _ Hmin).
    pose proof (Z.mul_div_le 1000000 (main_bps argv)).
    pose proof (Z.mul_succ_div_gt 1000000 (main_bps argv)).
    lia. }
  pose proof (Nat2Z.is_nonneg (List.length input)) as HL.
  split; nia.
Qed.

(** Three bytes at the default rate: 3123 microseconds asked for, the
    exact figure being 3125. *)
Lemma pacing_undershoot_witness :
  (List.length ["slow"%string] <= 2)%nat /\
  4 < main_delay ["slow"%string] /\
  main_bps ["slow"%string] *
    total (sleeps (evs (slow ["slow"%string] [xe2; x98; x83]%byte)))
  <= 1000000 * Z.of_nat (List.length [xe2; x98; x83]%byte).
Proof.
  split; [simpl; lia|]. split; [reflexivity|].
  apply (pacing_undershoot ["slow"%string] [xe2; x98; x83]%byte).
  - simpl. lia.
  - reflexivity.
Defined.

(** A higher rate in effect never gives a longer delay. *)
Theorem faster_rate_shorter_delay (argv argv' : list string) :
  main_bps argv <= main_bps argv' ->
  main_delay argv' <= main_delay argv.
Proof.
  intros H. unfold main_delay. apply delay_of_antitone.
  pose proof (main_bps_min argv). lia.
Qed.

Lemma faster_rate_shorter_delay_witness :
  main_bps ["slow"; "480"]%string <= main_bps ["slow"%string] /\
  main_delay ["slow"%string] <= main_delay ["slow"; "480"]%string.
Proof.
  split; [discriminate|].
  apply (faster_rate_shorter_delay ["slow"; "480"]%string ["slow"%string]).
  discriminate.
Defined.

(** ** What a run depends on *)

(** The command line matters through the rate in effect only: two
    accepted command lines with the same rate (whatever the program
    name, and whether the rate was given, defaulted or raised to 10)
    give the same run on the same input, call for call. *)
Theorem run_depends_on_rate_only
        (argv argv' : list string) (input : list byte) :
  (List.length argv <= 2)%nat ->
  (List.length argv' <= 2)%nat ->
  main_bps argv = main_bps argv' ->
  slow argv input = slow argv' input.
Proof.
  intros H H' Hbps.
  rewrite (slow_accepted argv input H), (slow_accepted argv' input H').
  unfold main_delay. rewrite Hbps. reflexivity.
Qed.

(** No rate argument is the rate 960; the rates -3 and 0 are both 10. *)
Lemma run_depends_on_rate_only_witness :
  ((List.length ["slow"%string] <= 2)%nat /\
   (List.length ["./slow"; "960"]%string <= 2)%nat /\
   main_bps ["slow"%string] = main_bps ["./slow"; "960"]%string /\
   slow ["slow"%string] ["A"]%byte =
   slow ["./slow"; "960"]%string ["A"]%byte) /\
  slow ["slow"; "-3"]%string ["A"]%byte =
  slow ["slow"; "0"]%string ["A"]%byte.
Proof.
  split.
  - split; [simpl; lia|]. split; [simpl; lia|]. split; [reflexivity|].
    apply (run_depends_on_rate_only ["slow"%string] ["./slow"; "960"]%string);
      [simpl; lia | simpl; lia | reflexivity].
  - apply (run_depends_on_rate_only
             ["slow"; "-3"]%string ["slow"; "0"]%string);
      [simpl; lia | simpl; lia | reflexivity].
Defined.

(** Above 200000 bytes per second the rate no longer shows: any two
    accepted command lines with such rates give the same run. *)
Theorem fast_rates_alike (argv argv' : list string) (input : list byte) :
  (List.length argv <= 2)%nat ->
  (List.length argv' <= 2)%nat ->
  200000 < main_bps argv ->
  200000 < main_bps argv' ->
  slow argv input = slow argv' input.
Proof.
  intros H H' Hr Hr'.
  assert (Hoff : forall a : list string,
             200000 < main_bps a -> pause (main_delay a) = []).
  { intros a Ha. apply pause_off.
    destruct (Z.lt_ge_cases 4 (main_delay a)) as [Hd|Hd]; [|exact Hd].
    apply (delay_above_floor _ (main_bps_min a)) in Hd. lia. }
  rewrite (slow_accepted argv input H), (slow_accepted argv' input H').
  unfold copy_phase, iteration.
  rewrite (Hoff argv Hr), (Hoff argv' Hr'). reflexivity.
Qed.

Lemma fast_rates_alike_witness :
  (List.length ["slow"; "200001"]%string <= 2)%nat /\
  (List.length ["slow"; "2000000"]%string <= 2)%nat /\
  200000 < main_bps ["slow"; "200001"]%string /\
  200000 < main_bps ["slow"; "2000000"]%string /\
  slow ["slow"; "200001"]%string ["A"; "B"]%byte =
  slow ["slow"; "2000000"]%string ["A"; "B"]%byte.
Proof.
  split; [simpl; lia|]. split; [simpl; lia|].
  split; [reflexivity|]. split; [reflexivity|].
  apply (fast_rates_alike ["slow"; "200001"]%string ["slow"; "2000000"]%string);
    [simpl; lia | simpl; lia | reflexivity | reflexivity].
Defined.

(** The bytes on standard output tell the input and nothing else: two
    accepted invocations, at whatever rates, write the same bytes
    exactly when they read the same input. *)
Theorem output_determines_input
        (argv argv' : list string) (input input' : list byte) :
  (List.length argv <= 2)%nat ->
  (List.length argv' <= 2)%nat ->
  (written Stdout (evs (slow argv input)) =
   written Stdout (evs (slow argv' input')) <->
   input = input').
Proof.
  intros H H'.
  rewrite (accepted_stdout argv input H), (accepted_stdout argv' input' H').
  split.
  - intros Heq. apply app_inv_head in Heq. apply app_inv_tail in Heq.
    exact Heq.
  - intros ->. reflexivity.
Qed.

Lemma output_determines_input_witness :
  (List.length ["slow"%string] <= 2)%nat /\
  (List.length ["slow"; "9"]%string <= 2)%nat /\
  written Stdout (evs (slow ["slow"%string] [x00; xff]%byte)) =
  written Stdout (evs (slow ["slow"; "9"]%string [x00; xff]%byte)).
Proof.
  split; [simpl; lia|]. split; [simpl; lia|].
  apply (output_determines_input ["slow"%string] ["slow"; "9"]%string);
    [simpl; lia | simpl; lia | reflexivity].
Defined.

(** ** The copy is done byte by byte *)

(** What the program has done by the time it has read a first part of
    its input does not depend on what follows: the run on [first] up to
    the read that met the end of the stream is the beginning of the run
    on [first ++ more], and by then exactly the leading sequence and the
    bytes of [first] are on standard output. *)
Theorem output_keeps_up_with_input
        (argv : list string) (first more : list byte) :
  (List.length argv <= 2)%nat ->
  exists sofar rest,
    evs (slow argv first) =
      sofar ++ [EvGetc EOF; EvPrintf Stdout trailing_sequence] /\
    evs (slow argv (first ++ more)) = sofar ++ rest /\
    written Stdout sofar = leading_sequence ++ first /\
    bytes_read sofar = List.length first.
Proof.
  intros H.
  exists (EvSetvbuf Stdout :: EvPrintf Stdout leading_sequence ::
          flat_map (iteration (main_delay argv)) first).
  exists (copy_phase (main_delay argv) more ++
          [EvPrintf Stdout trailing_sequence]).
  rewrite !(slow_accepted argv _ H). cbn [evs]. unfold copy_phase.
  split; [|split; [|split]].
  - cbn [app]. rewrite <- app_assoc. reflexivity.
  - rewrite flat_map_app. cbn [app]. rewrite <- !app_assoc. reflexivity.
  - cbn [written stream_eqb].
    rewrite <- (app_nil_r (flat_map _ first)), written_iterations.
    cbn [written]. rewrite app_nil_r. reflexivity.
  - cbn [bytes_read]. induction first as [|b first IH]; [reflexivity|].
    cbn [flat_map]. unfold iteration at 1, pause.
    destruct (main_delay argv >? 4);
      cbn [app bytes_read List.length]; rewrite of_uchar_not_EOF, IH;
      reflexivity.
Qed.

Lemma output_keeps_up_with_input_witness :
  (List.length ["slow"%string] <= 2)%nat /\
  exists sofar rest,
    evs (slow ["slow"%string] ["A"]%byte) =
      sofar ++ [EvGetc EOF; EvPrintf Stdout trailing_sequence] /\
    evs (slow ["slow"%string] (["A"] ++ ["B"; "C"])%byte) = sofar ++ rest /\
    written Stdout sofar = leading_sequence ++ ["A"]%byte /\
    bytes_read sofar = List.length ["A"]%byte.
Proof.
  split; [simpl; lia|].
  apply (output_keeps_up_with_input ["slow"%string] ["A"]%byte).
  simpl. lia.
Defined.

(** ** No reading ahead *)

(** Splits a log given in full into each of its beginnings. *)
Ltac each_prefix H pre :=
  repeat (destruct pre as [|? pre]; cbn [app] in H;
          [ clear H | first [discriminate H | injection H as <- H] ]).

Ltac count_calls :=
  cbn [bytes_read bytes_written];
  rewrite ?of_uchar_not_EOF, ?Z.eqb_refl; lia.

Section ReadAhead.

Lemma bytes_read_app (t1 t2 : list event) :
  bytes_read (t1 ++ t2) = (bytes_read t1 + bytes_read t2)%nat.
Proof.
  induction t1 as [|e t1 IH]; [reflexivity|].
  destruct e; cbn [app bytes_read]; try exact IH.
  destruct (c =? EOF); rewrite IH; reflexivity.
Qed.

Lemma bytes_written_app (t1 t2 : list event) :
  bytes_written (t1 ++ t2) = (bytes_written t1 + bytes_written t2)%nat.
Proof.
  induction t1 as [|e t1 IH]; [reflexivity|].
  destruct e; cbn [app bytes_written]; rewrite IH; reflexivity.
Qed.

(** A log that has written all it read can be continued. *)
Lemma no_read_ahead_app (t1 t2 : list event) :
  no_read_ahead t1 ->
  bytes_read t1 = bytes_written t1 ->
  no_read_ahead t2 ->
  no_read_ahead (t1 ++ t2).
Proof.
  intros H1 Hbal H2 pre post Heq.
  apply app_eq_app in Heq. destruct Heq as (l & [[-> ->]|[-> ->]]).
  - apply (H1 pre l). reflexivity.
  - rewrite bytes_read_app, bytes_written_app, Hbal.
    pose proof (H2 l post eq_refl). lia.
Qed.

Variable delay : Z.

Lemma iteration_no_read_ahead (b : byte) :
  no_read_ahead (iteration delay b) /\
  bytes_read (iteration delay b) = bytes_written (iteration delay b).
Proof.
  unfold iteration, pause. destruct (delay >? 4); split;
    try count_calls; intros pre post H; each_prefix H pre; count_calls.
Qed.

Lemma iterations_no_read_ahead (input : list byte) (tail : list event) :
  no_read_ahead tail ->
  no_read_ahead (flat_map (iteration delay) input ++ tail).
Proof.
  intros Htail. induction input as [|b input IH]; [exact Htail|].
  cbn [flat_map]. rewrite <- app_assoc.
  destruct (iteration_no_read_ahead b) as [Hit Hbal].
  apply no_read_ahead_app; [exact Hit | exact Hbal | exact IH].
Qed.

End ReadAhead.

(** At every point of an accepted run the bytes written are the bytes
    read so far, or all of them but the last one read: the program holds
    at most one byte, and reads the next only once that one is out. *)
Theorem never_reads_ahead (argv : list string) (input : list byte) :
  (List.length argv <= 2)%nat ->
  no_read_ahead (evs (slow argv input)).
Proof.
  intros H. rewrite (slow_accepted argv input H). cbn [evs].
  unfold copy_phase. rewrite <- app_assoc.
  change (EvSetvbuf Stdout :: EvPrintf Stdout leading_sequence ::
          flat_map (iteration (main_delay argv)) input ++
          [EvGetc EOF] ++ [EvPrintf Stdout trailing_sequence])
    with ([EvSetvbuf Stdout; EvPrintf Stdout leading_sequence] ++
          flat_map (iteration (main_delay argv)) input ++
          [EvGetc EOF; EvPrintf Stdout trailing_sequence]).
  apply no_read_ahead_app.
  - intros pre post Heq. each_prefix Heq pre; count_calls.
  - reflexivity.
  - apply iterations_no_read_ahead.
    intros pre post Heq. each_prefix Heq pre; count_calls.
Qed.

(** After the second read of a two-byte input, one byte is out and one
    is held. *)
Lemma never_reads_ahead_witness :
  (List.length ["slow"%string] <= 2)%nat /\
  (bytes_written
     [EvSetvbuf Stdout; EvPrintf Stdout leading_sequence;
      EvGetc 65; EvPutc "A"; EvUsleep 1041; EvGetc 66]
   <= bytes_read
        [EvSetvbuf Stdout; EvPrintf Stdout leading_sequence;
         EvGetc 65; EvPutc "A"; EvUsleep 1041; EvGetc 66]
   <= bytes_written
        [EvSetvbuf Stdout; EvPrintf Stdout leading_sequence;
         EvGetc 65; EvPutc "A"; EvUsleep 1041; EvGetc 66] + 1)%nat.
Proof.
  split; [simpl; lia|].
  apply (never_reads_ahead ["slow"%string] ["A"; "B"]%byte
           ltac:(simpl; lia)
           [EvSetvbuf Stdout; EvPrintf Stdout leading_sequence;
            EvGetc 65; EvPutc "A"; EvUsleep 1041; EvGetc 66]
           [EvPutc "B"; EvUsleep 1041; EvGetc EOF;
            EvPrintf Stdout trailing_sequence]).
  reflexivity.
Defined.
